(** * A shallow embedding of the demo service in [main.py]

    The service keeps two module-level dictionaries, [users_db] and
    [posts_db], and exposes four routes over them.  Handlers are embedded
    as computations over an explicit [World] that carries the two
    dictionaries together with the two sources of values the handlers do
    not compute themselves: the identifiers drawn from [uuid4()] and the
    readings of [datetime.now()]. *)

From Stdlib Require Import ZArith.
From stdpp Require Import base option strings list gmap pretty.

(** ** Python dictionaries whose order is observed

    A Python [dict] iterates in insertion order, and assigning to a key
    that is already present replaces the value in place.  [posts_db] is
    iterated by [get_posts], so it is kept as an association list with
    exactly that behaviour. *)
Module PyDict.
Section Dict.
Context {V : Type}.

Definition t : Type := list (string * V).

Definition empty : t := [].

(** [d.get(k)] / [d[k]] *)
Fixpoint get (k : string) (d : t) : option V :=
  match d with
  | [] => None
  | (k', v) :: rest => if String.eqb k k' then Some v else get k rest
  end.

(** [k in d] *)
Definition contains (k : string) (d : t) : bool :=
  match get k d with Some _ => true | None => false end.

(** [d[k] = v] *)
Fixpoint set (k : string) (v : V) (d : t) : t :=
  match d with
  | [] => [(k, v)]
  | (k', v') :: rest =>
      if String.eqb k k' then (k, v) :: rest else (k', v') :: set k v rest
  end.

(** [d.keys()] and [d.values()], in iteration order *)
Definition keys (d : t) : list string := map fst d.
Definition values (d : t) : list V := map snd d.
End Dict.
Arguments t : clear implicits.
End PyDict.

(** ** Data model *)

(** A Python [str] is a sequence of code points and may hold a lone
    surrogate (U+D800 to U+DFFF): [json.loads] produces one from an
    escape such as ["\ud800"], and a [str] field accepts it.  A [str] is
    held here as the bytes of its UTF-8 form, a lone surrogate as the
    three bytes [ED A0..BF 80..BF] that
    [s.encode("utf-8", "surrogatepass")] writes for it.  This form is
    one-to-one, so [==], concatenation and dictionary keys behave on it
    as on the Python strings.

    [s.encode("utf-8")], which the framework applies to every reply,
    raises [UnicodeEncodeError] exactly when the string holds a lone
    surrogate, that is when a byte [ED] is followed by a byte in
    [A0..BF]. *)
Definition surrogate_lead (a b : Ascii.ascii) : bool :=
  (Ascii.N_of_ascii a =? 237)%N &&
  (160 <=? Ascii.N_of_ascii b)%N && (Ascii.N_of_ascii b <=? 191)%N.

Fixpoint utf8_encodable (s : string) : bool :=
  match s with
  | String a rest =>
      match rest with
      | String b _ => negb (surrogate_lead a b) && utf8_encodable rest
      | EmptyString => true
      end
  | EmptyString => true
  end.

(** [datetime.now()] yields a naive timestamp; only its identity matters
    here, so it is a count of microseconds. *)
Definition datetime : Type := Z.

(** [class User(BaseModel)] *)
Module User.
Record t : Type := Build { username : string; password : string }.
End User.

(** [class Post(BaseModel)] *)
Module Post.
Record t : Type := Build { content : string; username : string }.
End Post.

(** [class UserInDB(User)] *)
Module UserInDB.
Record t : Type := Build { id : string; username : string; password : string }.
End UserInDB.

(** The value stored under a username: [{"id": ..., "password": ...}]. *)
Record UserRow : Type := mkUserRow {
  stored_id : string;
  stored_password : string
}.

(** The value stored under a post id:
    [{"content": ..., "username": ..., "created_at": ...}]. *)
Record PostRow : Type := mkPostRow {
  stored_content : string;
  stored_username : string;
  stored_created_at : datetime
}.

(** Values that occur in the dictionaries the handlers return. *)
Inductive pyval : Type :=
| VStr (s : string)
| VDatetime (d : datetime).

(** [HTTPException(status_code=..., detail=...)] *)
Record HTTPException : Type := mkHTTPException {
  status_code : Z;
  detail : string
}.

(** The process state.  [uuid_calls] and [clock_reads] count how often
    [uuid4()] and [datetime.now()] have been called so far. *)
Record World : Type := mkWorld {
  users_db : gmap string UserRow;
  posts_db : PyDict.t PostRow;
  uuid_calls : nat;
  clock_reads : nat
}.

(** [users_db = {}] and [posts_db = {}] at import time. *)
Definition initial : World := mkWorld ∅ PyDict.empty 0 0.

(** ** Handler computations

    A handler either returns a value or raises an [HTTPException]; in both
    cases it hands back the world it leaves behind, because a Python
    exception does not undo assignments made before it was raised. *)
Definition Handler (A : Type) : Type := World → (HTTPException + A) * World.

#[global] Instance Handler_ret : MRet Handler :=
  λ A (a : A) w, (inr a, w).

#[global] Instance Handler_bind : MBind Handler :=
  λ A B (f : A → Handler B) (m : Handler A) w,
    match m w with
    | (inl e, w') => (inl e, w')
    | (inr a, w') => f a w'
    end.

(** [raise HTTPException(...)] *)
Definition raise {A : Type} (code : Z) (msg : string) : Handler A :=
  λ w, (inl (mkHTTPException code msg), w).

Definition read_users_db : Handler (gmap string UserRow) :=
  λ w, (inr (users_db w), w).

Definition read_posts_db : Handler (PyDict.t PostRow) :=
  λ w, (inr (posts_db w), w).

(** [users_db[k] = row] *)
Definition users_db_setitem (k : string) (row : UserRow) : Handler unit :=
  λ w, (inr (), mkWorld (<[k := row]> (users_db w)) (posts_db w)
                        (uuid_calls w) (clock_reads w)).

(** [posts_db[k] = row] *)
Definition posts_db_setitem (k : string) (row : PostRow) : Handler unit :=
  λ w, (inr (), mkWorld (users_db w) (PyDict.set k row (posts_db w))
                        (uuid_calls w) (clock_reads w)).

(** The two library calls whose results the handlers only consume:
    [uuid_stream n] is the string [str(uuid4())] evaluates to at the
    [n]-th call in this process, [clock_stream n] is what the [n]-th call
    of [datetime.now()] returns. *)
Class Environment : Type := {
  uuid_stream : nat → string;
  clock_stream : nat → datetime
}.

Section Service.
Context `{Environment}.

(** [str(uuid4())] *)
Definition uuid4 : Handler string :=
  λ w, (inr (uuid_stream (uuid_calls w)),
        mkWorld (users_db w) (posts_db w) (S (uuid_calls w)) (clock_reads w)).

(** [datetime.now()] *)
Definition datetime_now : Handler datetime :=
  λ w, (inr (clock_stream (clock_reads w)),
        mkWorld (users_db w) (posts_db w) (uuid_calls w) (S (clock_reads w))).

(** *** The handlers of [main.py] *)

(** [authenticate_user] (lines 28-35).  The test is
    [username in users_db and users_db[username]["password"] == password]:
    the subscript is evaluated only when the key is present, and [==] on
    [str] is exact equality. *)
Definition authenticate_user (username password : string) : Handler UserInDB.t :=
  db ← read_users_db;
  match db !! username with
  | Some row =>
      if String.eqb (stored_password row) password
      then mret (UserInDB.Build (stored_id row) username password)
      else raise 401 "Invalid credentials"
  | None => raise 401 "Invalid credentials"
  end.

(** [register] (lines 38-52) *)
Definition register (user : User.t) : Handler UserInDB.t :=
  db ← read_users_db;
  match db !! User.username user with
  | Some _ => raise 400 "Username already exists"
  | None =>
      user_id ← uuid4;
      _ ← users_db_setitem (User.username user)
            (mkUserRow user_id (User.password user));
      mret (UserInDB.Build user_id (User.username user) (User.password user))
  end.

(** [login] (lines 55-62) *)
Definition login (user : User.t) : Handler (PyDict.t pyval) :=
  _ ← authenticate_user (User.username user) (User.password user);
  mret [("message", VStr ("Welcome, " +:+ User.username user +:+ "!"))].

(** [post.dict()] *)
Definition Post_dict (post : Post.t) : PyDict.t pyval :=
  [("content", VStr (Post.content post));
   ("username", VStr (Post.username post))].

(** [create_post] (lines 65-86); it returns
    [{**post.dict(), "created_at": created_at}]. *)
Definition create_post (post : Post.t) : Handler (PyDict.t pyval) :=
  db ← read_users_db;
  match db !! Post.username post with
  | None => raise 404 "User not found"
  | Some row =>
      let user_id := stored_id row in
      post_id ← uuid4;
      created_at ← datetime_now;
      _ ← posts_db_setitem post_id
            (mkPostRow (Post.content post) (Post.username post) created_at);
      mret (PyDict.set "created_at" (VDatetime created_at) (Post_dict post))
  end.

(** [get_posts] (lines 89-99) *)
Definition get_posts : Handler (list Post.t) :=
  db ← read_posts_db;
  mret (map (λ post, Post.Build (stored_content post) (stored_username post))
            (PyDict.values db)).

(** *** The routes

    [@app.post("/register", response_model=UserInDB)],
    [@app.post("/login")],
    [@app.post("/posts", response_model=Post)] and
    [@app.get("/posts", response_model=List[Post])].
    The request body has already been parsed into the handler's
    argument (a body that fails this validation is answered 422 without
    the handler being called, and is not a [Request] here).  A declared
    [response_model] makes the framework build the reply from the
    model's fields only: what the handler returned is validated into the
    model and the model is serialised.  The reply is rendered to UTF-8
    only after the handler is done, so a reply that cannot be encoded
    turns into a 500 while the handler's assignments stay. *)

Inductive Request : Type :=
| POST_register (user : User.t)
| POST_login (user : User.t)
| POST_posts (post : Post.t)
| GET_posts.

Inductive Body : Type :=
| JObject (fields : PyDict.t pyval)
| JArray (items : list (PyDict.t pyval))
| PlainText (text : string).

Record Response : Type := mkResponse { status : Z; body : Body }.

(** The reply FastAPI sends for a raised [HTTPException]. *)
Definition error_reply (code : Z) (msg : string) : Response :=
  mkResponse code (JObject [("detail", VStr msg)]).

(** The reply to a request during which an exception other than
    [HTTPException] escaped: status 500 with a plain-text body. *)
Definition server_error : Response :=
  mkResponse 500 (PlainText "Internal Server Error").

(** Whether [json.dumps(..., ensure_ascii=False).encode("utf-8")]
    goes through on a body. *)
Definition pyval_encodable (v : pyval) : bool :=
  match v with
  | VStr s => utf8_encodable s
  | VDatetime _ => true
  end.

Definition fields_encodable (d : PyDict.t pyval) : bool :=
  forallb (λ item, utf8_encodable item.1 && pyval_encodable item.2) d.

Definition Body_encodable (b : Body) : bool :=
  match b with
  | JObject fields => fields_encodable fields
  | JArray items => forallb fields_encodable items
  | PlainText _ => true
  end.

(** Rendering a JSON reply.  It happens after the handler has returned
    (or raised); when the body cannot be encoded the exception escapes
    and the client is answered 500. *)
Definition send (code : Z) (b : Body) : Response :=
  if Body_encodable b then mkResponse code b else server_error.

(** Serialisation of a [UserInDB] instance, fields in declaration order
    (inherited ones first). *)
Definition UserInDB_dict (u : UserInDB.t) : PyDict.t pyval :=
  [("username", VStr (UserInDB.username u));
   ("password", VStr (UserInDB.password u));
   ("id", VStr (UserInDB.id u))].

(** Validation of a returned dictionary into [Post]: both declared
    fields must be present and be strings, other keys are ignored. *)
Definition Post_validate (d : PyDict.t pyval) : option Post.t :=
  match PyDict.get "content" d, PyDict.get "username" d with
  | Some (VStr c), Some (VStr u) => Some (Post.Build c u)
  | _, _ => None
  end.

Definition respond {A : Type} (response_model : A → option Body)
    (r : (HTTPException + A) * World) : Response * World :=
  match r with
  | (inl e, w) =>
      (send (status_code e) (JObject [("detail", VStr (detail e))]), w)
  | (inr a, w) =>
      match response_model a with
      | Some b => (send 200 b, w)
      | None => (server_error, w)
      end
  end.

Definition serve (req : Request) (w : World) : Response * World :=
  match req with
  | POST_register user =>
      respond (λ u, Some (JObject (UserInDB_dict u))) (register user w)
  | POST_login user =>
      respond (λ d, Some (JObject d)) (login user w)
  | POST_posts post =>
      respond (λ d, JObject ∘ Post_dict <$> Post_validate d) (create_post post w)
  | GET_posts =>
      respond (λ l, Some (JArray (map Post_dict l))) (get_posts w)
  end.

(** The [HTTPException] the handler of a request raises, if it raises. *)
Definition raised {A : Type} (r : (HTTPException + A) * World) : option HTTPException :=
  match r.1 with inl e => Some e | inr _ => None end.

Definition handler_error (req : Request) (w : World) : option HTTPException :=
  match req with
  | POST_register user => raised (register user w)
  | POST_login user => raised (login user w)
  | POST_posts post => raised (create_post post w)
  | GET_posts => raised (get_posts w)
  end.

(** The world a request leaves behind, and the worlds the process can be
    in: those obtained from the empty dictionaries by serving requests. *)
Definition step (req : Request) (w : World) : World := (serve req w).2.

Definition run (reqs : list Request) (w : World) : World :=
  foldl (λ w req, step req w) w reqs.

Inductive reachable : World → Prop :=
| reachable_initial : reachable initial
| reachable_step req w : reachable w → reachable (step req w).

(** Whether a handler run ended in an exception. *)
Definition failed {A : Type} (r : (HTTPException + A) * World) : Prop :=
  match r.1 with inl _ => True | inr _ => False end.

Definition failed_with {A : Type} (code : Z) (r : (HTTPException + A) * World) : Prop :=
  match r.1 with inl e => status_code e = code | inr _ => False end.

(** Every identifier found in the dictionaries was drawn from [uuid4()]
    earlier in this process. *)
Definition ids_issued (w : World) : Prop :=
  (∀ name row, users_db w !! name = Some row →
     ∃ k, k < uuid_calls w ∧ stored_id row = uuid_stream k) ∧
  (∀ post_id, post_id ∈ PyDict.keys (posts_db w) →
     ∃ k, k < uuid_calls w ∧ post_id = uuid_stream k).

(** Every stored post names a registered user. *)
Definition authors_registered (w : World) : Prop :=
  ∀ post, post ∈ PyDict.values (posts_db w) →
    is_Some (users_db w !! stored_username post).

End Service.

(** ** A concrete environment

    Used to run the service on examples: the [n]-th identifier is the
    decimal numeral of [n], the [n]-th clock reading is [1000 * (n + 1)]. *)
Definition demo_env : Environment := {|
  uuid_stream := λ n, pretty n;
  clock_stream := λ n, (1000 * Z.of_nat (S n))%Z
|}.

Definition bob : User.t := User.Build "bob" "secret".

(** The Python string ["\ud800"]: one lone surrogate. *)
Definition lone_surrogate : string :=
  String (Ascii.ascii_of_nat 237)
    (String (Ascii.ascii_of_nat 160)
       (String (Ascii.ascii_of_nat 128) EmptyString)).
Definition hello : Post.t := Post.Build "hello world" "bob".

(** The world after [bob] has registered, and after he has posted. *)
Definition w_bob : World := @step demo_env (POST_register bob) initial.
Definition w_hello : World := @step demo_env (POST_posts hello) w_bob.

(** An environment in which [uuid4()] keeps returning one and the same
    string; it shows what the handlers rely on [uuid4()] for. *)
Definition stuck_env : Environment := {|
  uuid_stream := λ _, "0";
  clock_stream := λ n, (1000 * Z.of_nat (S n))%Z
|}.

(** ** What a sequence of requests amounts to

    Two functions of the requests alone, against which the dictionaries
    are compared further down. *)

(** The password sent with the first registration request for [name]. *)
Fixpoint first_registration (name : string) (reqs : list Request) : option string :=
  match reqs with
  | [] => None
  | POST_register user :: rest =>
      if String.eqb (User.username user) name
      then Some (User.password user)
      else first_registration name rest
  | _ :: rest => first_registration name rest
  end.

(** The create-post requests whose username has registered by the time
    they arrive, [names] being the usernames registered beforehand. *)
Fixpoint accepted_posts (names : gset string) (reqs : list Request) : list Post.t :=
  match reqs with
  | [] => []
  | POST_register user :: rest =>
      accepted_posts ({[User.username user]} ∪ names) rest
  | POST_posts post :: rest =>
      if decide (Post.username post ∈ names)
      then post :: accepted_posts names rest
      else accepted_posts names rest
  | _ :: rest => accepted_posts names rest
  end.

(** No identifier is in use twice: not by two users, not by a user and a
    post, not by two posts. *)
Definition ids_distinct (w : World) : Prop :=
  (∀ name1 name2 row1 row2,
     users_db w !! name1 = Some row1 → users_db w !! name2 = Some row2 →
     stored_id row1 = stored_id row2 → name1 = name2) ∧
  (∀ name row, users_db w !! name = Some row →
     stored_id row ∉ PyDict.keys (posts_db w)) ∧
  NoDup (PyDict.keys (posts_db w)).

(** ** Facts about ordered dictionaries *)
Section PyDictFacts.
Context {V : Type}.
Implicit Types (d : PyDict.t V) (k : string) (v : V).

Lemma PyDict_get_None d k : PyDict.get k d = None ↔ k ∉ PyDict.keys d.
Proof.
  induction d as [|[k' v'] d IH]; simpl.
  - split; [intros _; apply not_elem_of_nil | done].
  - destruct (String.eqb_spec k k') as [->|Hne].
    + split; [done | intros Hk; destruct Hk; left].
    + rewrite IH, not_elem_of_cons. tauto.
Qed.

Lemma PyDict_get_set_eq d k v : PyDict.get k (PyDict.set k v d) = Some v.
Proof.
  induction d as [|[k' v'] d IH]; simpl.
  - by rewrite String.eqb_refl.
  - destruct (String.eqb_spec k k') as [->|Hne]; simpl.
    + by rewrite String.eqb_refl.
    + by destruct (String.eqb_spec k k').
Qed.

(** Assigning to a key that is not present appends the item. *)
Lemma PyDict_set_fresh d k v :
  k ∉ PyDict.keys d → PyDict.set k v d = d ++ [(k, v)].
Proof.
  induction d as [|[k' v'] d IH]; simpl; [done |].
  rewrite not_elem_of_cons. intros [Hne Hk].
  destruct (String.eqb_spec k k'); [done |]. by rewrite IH.
Qed.

(** Assignment never introduces a key other than the assigned one. *)
Lemma PyDict_keys_set d k v k' :
  k' ∈ PyDict.keys (PyDict.set k v d) → k' = k ∨ k' ∈ PyDict.keys d.
Proof.
  induction d as [|[k0 v0] d IH]; simpl.
  - rewrite list_elem_of_singleton. tauto.
  - destruct (String.eqb_spec k k0) as [->|Hne]; simpl;
      rewrite !elem_of_cons; [tauto |].
    intros [->|Hin]; [tauto |]. destruct (IH Hin); tauto.
Qed.

(** Nor a value other than the assigned one. *)
Lemma PyDict_values_set d k v v' :
  v' ∈ PyDict.values (PyDict.set k v d) → v' = v ∨ v' ∈ PyDict.values d.
Proof.
  induction d as [|[k0 v0] d IH]; simpl.
  - rewrite list_elem_of_singleton. tauto.
  - destruct (String.eqb_spec k k0) as [->|Hne]; simpl;
      rewrite !elem_of_cons; [tauto |].
    intros [->|Hin]; [tauto |]. destruct (IH Hin); tauto.
Qed.

Lemma PyDict_values_app d1 d2 :
  PyDict.values (d1 ++ d2) = PyDict.values d1 ++ PyDict.values d2.
Proof. apply map_app. Qed.
End PyDictFacts.

(** ** The handlers, case by case *)
Section HandlerEquations.
Context `{env : Environment}.
Implicit Types (w : World) (user : User.t) (post : Post.t).

Lemma register_taken user w row :
  users_db w !! User.username user = Some row →
  register user w = (inl (mkHTTPException 400 "Username already exists"), w).
Proof. intros Hrow. unfold register, mbind, Handler_bind; simpl. by rewrite Hrow. Qed.

Lemma register_free user w :
  users_db w !! User.username user = None →
  register user w =
    (inr (UserInDB.Build (uuid_stream (uuid_calls w))
            (User.username user) (User.password user)),
     mkWorld (<[User.username user :=
                  mkUserRow (uuid_stream (uuid_calls w)) (User.password user)]>
                (users_db w))
             (posts_db w) (S (uuid_calls w)) (clock_reads w)).
Proof. intros Hrow. unfold register, mbind, Handler_bind; simpl. by rewrite Hrow. Qed.

Lemma authenticate_user_unknown username password w :
  users_db w !! username = None →
  authenticate_user username password w =
    (inl (mkHTTPException 401 "Invalid credentials"), w).
Proof.
  intros Hrow. unfold authenticate_user, mbind, Handler_bind; simpl.
  by rewrite Hrow.
Qed.

Lemma authenticate_user_known username password w row :
  users_db w !! username = Some row →
  authenticate_user username password w =
    if String.eqb (stored_password row) password
    then (inr (UserInDB.Build (stored_id row) username password), w)
    else (inl (mkHTTPException 401 "Invalid credentials"), w).
Proof.
  intros Hrow. unfold authenticate_user, mbind, Handler_bind; simpl.
  rewrite Hrow. by destruct (String.eqb _ _).
Qed.

Lemma login_eq user w :
  login user w =
    match authenticate_user (User.username user) (User.password user) w with
    | (inl e, w') => (inl e, w')
    | (inr _, w') =>
        (inr [("message", VStr ("Welcome, " +:+ User.username user +:+ "!"))], w')
    end.
Proof. reflexivity. Qed.

Lemma create_post_unknown post w :
  users_db w !! Post.username post = None →
  create_post post w = (inl (mkHTTPException 404 "User not found"), w).
Proof.
  intros Hrow. unfold create_post, mbind, Handler_bind; simpl. by rewrite Hrow.
Qed.

Lemma create_post_known post w row :
  users_db w !! Post.username post = Some row →
  create_post post w =
    (inr [("content", VStr (Post.content post));
          ("username", VStr (Post.username post));
          ("created_at", VDatetime (clock_stream (clock_reads w)))],
     mkWorld (users_db w)
             (PyDict.set (uuid_stream (uuid_calls w))
                (mkPostRow (Post.content post) (Post.username post)
                   (clock_stream (clock_reads w)))
                (posts_db w))
             (S (uuid_calls w)) (S (clock_reads w))).
Proof.
  intros Hrow. unfold create_post, mbind, Handler_bind; simpl. by rewrite Hrow.
Qed.

Lemma get_posts_eq w :
  get_posts w =
    (inr (map (λ row, Post.Build (stored_content row) (stored_username row))
            (PyDict.values (posts_db w))), w).
Proof. reflexivity. Qed.
End HandlerEquations.

(** ** One request: what it does to the world *)
Section Steps.
Context `{env : Environment}.
Implicit Types (w : World) (user : User.t) (post : Post.t) (req : Request).

Lemma respond_world {A : Type} (response_model : A → option Body)
    (r : (HTTPException + A) * World) :
  (respond response_model r).2 = r.2.
Proof.
  destruct r as [[e|a] w]; simpl; [done |].
  by destruct (response_model a).
Qed.

(** Serialising the reply does not touch the world: the world after a
    request is the one its handler leaves behind. *)
Lemma step_handler req w :
  step req w =
    match req with
    | POST_register user => (register user w).2
    | POST_login user => (login user w).2
    | POST_posts post => (create_post post w).2
    | GET_posts => (get_posts w).2
    end.
Proof. destruct req; apply respond_world. Qed.

Lemma authenticate_user_world username password w :
  (authenticate_user username password w).2 = w.
Proof.
  destruct (users_db w !! username) as [row|] eqn:Hrow.
  - rewrite (authenticate_user_known _ _ _ _ Hrow).
    by destruct (String.eqb _ _).
  - by rewrite (authenticate_user_unknown _ _ _ Hrow).
Qed.

Lemma login_world user w : (login user w).2 = w.
Proof.
  rewrite login_eq.
  pose proof (authenticate_user_world (User.username user) (User.password user) w) as Hw.
  by destruct (authenticate_user _ _ w) as [[e|u] w'].
Qed.

(** What the reply validation of [POST /posts] sees always validates. *)
Lemma create_post_validates post w d w' :
  create_post post w = (inr d, w') → Post_validate d = Some post.
Proof.
  destruct (users_db w !! Post.username post) as [row|] eqn:Hrow.
  - rewrite (create_post_known _ _ _ Hrow). intros [= <- _].
    by destruct post.
  - by rewrite (create_post_unknown _ _ Hrow).
Qed.

(** Rendering answers with the status it was given, or with 500. *)
Lemma send_cases code b :
  Body_encodable b = true ∧ send code b = mkResponse code b ∨
  Body_encodable b = false ∧ send code b = server_error.
Proof. unfold send. destruct (Body_encodable b); [by left | by right]. Qed.

Lemma raised_failed {A : Type} (r : (HTTPException + A) * World) :
  failed r ↔ is_Some (raised r).
Proof.
  unfold failed, raised. destruct r.1 as [e|a].
  - split; [by eexists | done].
  - split; [done | by intros [e He]].
Qed.

(** A handler raises nothing but the exception of its route, it raises
    it before any assignment, and the client gets that exception's
    reply. *)
Lemma handler_error_cases req w e :
  handler_error req w = Some e →
  step req w = w ∧
  (serve req w).1 = error_reply (status_code e) (detail e) ∧
  match req with
  | POST_register _ => e = mkHTTPException 400 "Username already exists"
  | POST_login _ => e = mkHTTPException 401 "Invalid credentials"
  | POST_posts _ => e = mkHTTPException 404 "User not found"
  | GET_posts => False
  end.
Proof.
  rewrite step_handler. unfold handler_error, raised.
  destruct req as [user|user|post|]; simpl.
  - destruct (users_db w !! User.username user) as [row|] eqn:Hrow.
    + rewrite (register_taken _ _ _ Hrow); simpl. by intros [= <-].
    + by rewrite (register_free _ _ Hrow).
  - rewrite login_eq.
    destruct (users_db w !! User.username user) as [row|] eqn:Hrow.
    + rewrite (authenticate_user_known _ _ _ _ Hrow).
      destruct (String.eqb _ _); simpl; [done | by intros [= <-]].
    + rewrite (authenticate_user_unknown _ _ _ Hrow); simpl. by intros [= <-].
  - destruct (users_db w !! Post.username post) as [row|] eqn:Hrow.
    + by rewrite (create_post_known _ _ _ Hrow).
    + rewrite (create_post_unknown _ _ Hrow); simpl. by intros [= <-].
  - done.
Qed.

(** A handler that returned is answered 200, or 500 if what it returned
    cannot be encoded. *)
Lemma handler_returned_reply req w :
  handler_error req w = None →
  status (serve req w).1 = 200%Z ∨ (serve req w).1 = server_error.
Proof.
  unfold handler_error, raised, serve.
  destruct req as [user|user|post|].
  - destruct (register user w) as [[e|u] w'] eqn:Hrun; simpl; [done |].
    intros _. destruct (send_cases 200 (JObject (UserInDB_dict u)))
      as [[_ ->]|[_ ->]]; [by left | by right].
  - destruct (login user w) as [[e|d] w'] eqn:Hrun; simpl; [done |].
    intros _. destruct (send_cases 200 (JObject d))
      as [[_ ->]|[_ ->]]; [by left | by right].
  - destruct (create_post post w) as [[e|d] w'] eqn:Hrun; simpl; [done |].
    intros _. rewrite (create_post_validates _ _ _ _ Hrun); simpl.
    destruct (send_cases 200 (JObject (Post_dict post)))
      as [[_ ->]|[_ ->]]; [by left | by right].
  - simpl. intros _.
    match goal with |- context [send 200 ?b] =>
      destruct (send_cases 200 b) as [[_ ->]|[_ ->]]; [by left | by right]
    end.
Qed.

(** The replies to a create-post request and to a listing encode when
    the contents and usernames in them do. *)
Lemma Post_dict_encodable post :
  fields_encodable (Post_dict post) =
    utf8_encodable (Post.content post) && utf8_encodable (Post.username post).
Proof.
  unfold fields_encodable, Post_dict; simpl.
  by destruct (utf8_encodable (Post.content post)),
              (utf8_encodable (Post.username post)).
Qed.

Lemma serve_POST_posts_known post w row :
  users_db w !! Post.username post = Some row →
  (serve (POST_posts post) w).1 =
    if utf8_encodable (Post.content post) && utf8_encodable (Post.username post)
    then mkResponse 200 (JObject (Post_dict post))
    else server_error.
Proof.
  intros Hrow. unfold serve.
  destruct (create_post post w) as [[e|d] w'] eqn:Hrun.
  - by rewrite (create_post_known _ _ _ Hrow) in Hrun.
  - simpl. rewrite (create_post_validates _ _ _ _ Hrun).
    destruct post as [c u]; unfold send; simpl.
    by destruct (utf8_encodable c), (utf8_encodable u).
Qed.

Lemma serve_GET_posts w :
  (serve GET_posts w).1 =
    if forallb (λ row, utf8_encodable (stored_content row) &&
                       utf8_encodable (stored_username row))
               (PyDict.values (posts_db w))
    then mkResponse 200
           (JArray (map (λ row, [("content", VStr (stored_content row));
                                 ("username", VStr (stored_username row))])
                        (PyDict.values (posts_db w))))
    else server_error.
Proof.
  unfold serve. rewrite get_posts_eq; simpl. unfold send; simpl.
  rewrite map_map; simpl.
  assert (Henc : ∀ rows : list PostRow,
            forallb fields_encodable
              (map (λ row, [("content", VStr (stored_content row));
                            ("username", VStr (stored_username row))]) rows) =
            forallb (λ row, utf8_encodable (stored_content row) &&
                            utf8_encodable (stored_username row)) rows).
  { induction rows as [|row rows IH]; [done |]. simpl. rewrite IH. f_equal.
    apply (Post_dict_encodable (Post.Build (stored_content row) (stored_username row))). }
  by rewrite Henc.
Qed.

(** A handler that raised has not assigned to either dictionary (nor
    drawn an identifier or read the clock). *)
Lemma failed_register_world user w :
  failed (register user w) → (register user w).2 = w.
Proof.
  destruct (users_db w !! User.username user) as [row|] eqn:Hrow.
  - by rewrite (register_taken _ _ _ Hrow).
  - rewrite (register_free _ _ Hrow). by unfold failed.
Qed.

Lemma failed_create_post_world post w :
  failed (create_post post w) → (create_post post w).2 = w.
Proof.
  destruct (users_db w !! Post.username post) as [row|] eqn:Hrow.
  - rewrite (create_post_known _ _ _ Hrow). by unfold failed.
  - by rewrite (create_post_unknown _ _ Hrow).
Qed.

Lemma run_cons req reqs w : run (req :: reqs) w = run reqs (step req w).
Proof. reflexivity. Qed.
End Steps.

(** ** Invariants of the two dictionaries *)
Section Invariants.
Context `{env : Environment}.
Implicit Types (w : World) (user : User.t) (post : Post.t) (req : Request).

Lemma ids_issued_initial : ids_issued initial.
Proof.
  split.
  - intros name row Hrow. simpl in Hrow. by rewrite lookup_empty in Hrow.
  - intros post_id Hin. by apply elem_of_nil in Hin.
Qed.

Lemma ids_issued_step req w : ids_issued w → ids_issued (step req w).
Proof.
  intros [Husers Hposts]. rewrite step_handler.
  destruct req as [user|user|post|].
  - destruct (users_db w !! User.username user) as [row|] eqn:Hrow.
    + by rewrite (register_taken _ _ _ Hrow).
    + rewrite (register_free _ _ Hrow). split; simpl.
      * intros name row. rewrite lookup_insert.
        case_decide as Hname.
        -- intros [= <-]. exists (uuid_calls w). simpl. split; [lia | done].
        -- intros Hold. destruct (Husers _ _ Hold) as (k & Hk & Hid).
           exists k. split; [lia | done].
      * intros post_id Hin. destruct (Hposts _ Hin) as (k & Hk & Hid).
        exists k. split; [lia | done].
  - by rewrite login_world.
  - destruct (users_db w !! Post.username post) as [row|] eqn:Hrow.
    + rewrite (create_post_known _ _ _ Hrow). split; simpl.
      * intros name row' Hold. destruct (Husers _ _ Hold) as (k & Hk & Hid).
        exists k. split; [lia | done].
      * intros post_id Hin.
        destruct (PyDict_keys_set _ _ _ _ Hin) as [->|Hold].
        -- exists (uuid_calls w). split; [lia | done].
        -- destruct (Hposts _ Hold) as (k & Hk & Hid).
           exists k. split; [lia | done].
    + by rewrite (create_post_unknown _ _ Hrow).
  - done.
Qed.

Lemma reachable_ids_issued w : reachable w → ids_issued w.
Proof.
  induction 1 as [|req w _ IH]; [apply ids_issued_initial |].
  by apply ids_issued_step.
Qed.

(** No request removes a user or changes a stored row. *)
Lemma users_db_step_mono req w name row :
  users_db w !! name = Some row → users_db (step req w) !! name = Some row.
Proof.
  intros Hname. rewrite step_handler.
  destruct req as [user|user|post|].
  - destruct (users_db w !! User.username user) as [row'|] eqn:Hrow.
    + by rewrite (register_taken _ _ _ Hrow).
    + rewrite (register_free _ _ Hrow); simpl.
      rewrite lookup_insert_ne; [done | congruence].
  - by rewrite login_world.
  - destruct (users_db w !! Post.username post) as [row'|] eqn:Hrow.
    + by rewrite (create_post_known _ _ _ Hrow).
    + by rewrite (create_post_unknown _ _ Hrow).
  - done.
Qed.

Lemma users_db_run_mono reqs w name row :
  users_db w !! name = Some row → users_db (run reqs w) !! name = Some row.
Proof.
  revert w. induction reqs as [|req reqs IH]; intros w Hname; [done |].
  rewrite run_cons. by apply IH, users_db_step_mono.
Qed.

(** A lookup in [users_db] changes only when that name registers. *)
Lemma users_db_step_change req w name :
  users_db (step req w) !! name ≠ users_db w !! name →
  users_db w !! name = None ∧
  ∃ pw, req = POST_register (User.Build name pw) ∧
        users_db (step req w) !! name =
          Some (mkUserRow (uuid_stream (uuid_calls w)) pw).
Proof.
  rewrite step_handler.
  destruct req as [user|user|post|].
  - destruct (users_db w !! User.username user) as [row'|] eqn:Hrow.
    + by rewrite (register_taken _ _ _ Hrow).
    + rewrite (register_free _ _ Hrow); simpl.
      rewrite lookup_insert. case_decide as Hname; [| done].
      subst name. intros _. split; [done |].
      exists (User.password user). by destruct user.
  - by rewrite login_world.
  - destruct (users_db w !! Post.username post) as [row'|] eqn:Hrow.
    + by rewrite (create_post_known _ _ _ Hrow).
    + by rewrite (create_post_unknown _ _ Hrow).
  - done.
Qed.

Lemma authors_registered_initial : authors_registered initial.
Proof. intros post Hin. by apply elem_of_nil in Hin. Qed.

Lemma authors_registered_step req w :
  authors_registered w → authors_registered (step req w).
Proof.
  intros Hinv post Hin.
  assert (Hcases : post ∈ PyDict.values (posts_db w) ∨
            ∃ p row, req = POST_posts p ∧
                     users_db w !! Post.username p = Some row ∧
                     stored_username post = Post.username p).
  { revert Hin. rewrite step_handler.
    destruct req as [user|user|p|].
    - destruct (users_db w !! User.username user) as [row|] eqn:Hrow.
      + rewrite (register_taken _ _ _ Hrow). by left.
      + rewrite (register_free _ _ Hrow). by left.
    - rewrite login_world. by left.
    - destruct (users_db w !! Post.username p) as [row|] eqn:Hrow.
      + rewrite (create_post_known _ _ _ Hrow); simpl. intros Hin.
        destruct (PyDict_values_set _ _ _ _ Hin) as [->|Hold]; [| by left].
        right. by exists p, row.
      + rewrite (create_post_unknown _ _ Hrow). by left.
    - by left. }
  destruct Hcases as [Hold|(p & row & -> & Hrow & ->)].
  - destruct (Hinv _ Hold) as [row Hrow].
    exists row. by apply users_db_step_mono.
  - exists row. by apply users_db_step_mono.
Qed.

Lemma reachable_authors_registered w : reachable w → authors_registered w.
Proof.
  induction 1 as [|req w _ IH]; [apply authors_registered_initial |].
  by apply authors_registered_step.
Qed.

(** *** Under the guarantee of [uuid4()]: no identifier is drawn twice *)
Section UniqueIds.
Hypothesis uuid_unique : Inj (=) (=) uuid_stream.

Lemma next_uuid_not_a_user_id w name row :
  ids_issued w → users_db w !! name = Some row →
  stored_id row ≠ uuid_stream (uuid_calls w).
Proof.
  intros [Husers _] Hrow Heq.
  destruct (Husers _ _ Hrow) as (k & Hk & Hid).
  rewrite Hid in Heq. apply uuid_unique in Heq. lia.
Qed.

Lemma next_uuid_not_a_post_id w :
  ids_issued w → uuid_stream (uuid_calls w) ∉ PyDict.keys (posts_db w).
Proof.
  intros [_ Hposts] Hin.
  destruct (Hposts _ Hin) as (k & Hk & Hid).
  apply uuid_unique in Hid. lia.
Qed.

(** Every request leaves the stored posts in place, in order; at most
    one post is added, at the end. *)
Lemma posts_db_step_prefix req w :
  ids_issued w → posts_db w `prefix_of` posts_db (step req w).
Proof.
  intros Hids. rewrite step_handler.
  destruct req as [user|user|post|].
  - destruct (users_db w !! User.username user) as [row|] eqn:Hrow.
    + by rewrite (register_taken _ _ _ Hrow).
    + by rewrite (register_free _ _ Hrow).
  - by rewrite login_world.
  - destruct (users_db w !! Post.username post) as [row|] eqn:Hrow.
    + rewrite (create_post_known _ _ _ Hrow); simpl.
      rewrite PyDict_set_fresh by by apply next_uuid_not_a_post_id.
      by apply prefix_app_r.
    + by rewrite (create_post_unknown _ _ Hrow).
  - done.
Qed.

Lemma posts_db_run_prefix reqs w :
  ids_issued w → posts_db w `prefix_of` posts_db (run reqs w).
Proof.
  revert w. induction reqs as [|req reqs IH]; intros w Hids; [done |].
  rewrite run_cons. etrans; [by apply posts_db_step_prefix |].
  by apply IH, ids_issued_step.
Qed.
End UniqueIds.
End Invariants.

(** ** The properties of the service *)
Section Properties.
Context `{env : Environment}.
Implicit Types (w : World) (user : User.t) (post : Post.t) (req : Request).

(** C1. For a create-post request of a registered user the handler hands
    back the dictionary with [content], [username] and [created_at],
    where [created_at] is the timestamp of the row it has just stored.
    The route, however, is declared with [response_model=Post]: the
    reply that is sent carries [content] and [username] only (it is the
    plain 500 when one of the two cannot be encoded), and [created_at]
    is not among its fields. *)
Theorem POST_posts_reply_fields post w row :
  users_db w !! Post.username post = Some row →
  let created_at := clock_stream (clock_reads w) in
  (create_post post w).1 =
    inr [("content", VStr (Post.content post));
         ("username", VStr (Post.username post));
         ("created_at", VDatetime created_at)] ∧
  PyDict.get (uuid_stream (uuid_calls w)) (posts_db (create_post post w).2) =
    Some (mkPostRow (Post.content post) (Post.username post) created_at) ∧
  (serve (POST_posts post) w).1 =
    (if utf8_encodable (Post.content post) && utf8_encodable (Post.username post)
     then mkResponse 200 (JObject [("content", VStr (Post.content post));
                                   ("username", VStr (Post.username post))])
     else server_error) ∧
  PyDict.contains "created_at"
    (match body (serve (POST_posts post) w).1 with
     | JObject fields => fields
     | JArray _ => []
     | PlainText _ => []
     end) = false.
Proof.
  intros Hrow created_at.
  rewrite (serve_POST_posts_known _ _ _ Hrow).
  rewrite (create_post_known _ _ _ Hrow); simpl.
  split_and!; [done | apply PyDict_get_set_eq | done |].
  by destruct (utf8_encodable (Post.content post) &&
               utf8_encodable (Post.username post)).
Qed.

(** C2. Registration: a username that is already a key of [users_db] is
    refused with status 400 and nothing changes; otherwise the handler
    draws an identifier that no stored user has, stores the row
    [{id, password}] under the username and returns
    [{id, username, password}] with that identifier. *)
Theorem register_spec user w :
  Inj (=) (=) uuid_stream → reachable w →
  match users_db w !! User.username user with
  | Some _ =>
      register user w =
        (inl (mkHTTPException 400 "Username already exists"), w)
  | None =>
      let user_id := uuid_stream (uuid_calls w) in
      (∀ name row, users_db w !! name = Some row → stored_id row ≠ user_id) ∧
      (register user w).1 =
        inr (UserInDB.Build user_id (User.username user) (User.password user)) ∧
      users_db (register user w).2 =
        <[User.username user := mkUserRow user_id (User.password user)]>
          (users_db w) ∧
      posts_db (register user w).2 = posts_db w
  end.
Proof.
  intros Huniq Hreach.
  destruct (users_db w !! User.username user) as [row|] eqn:Hrow.
  - by apply register_taken with row.
  - rewrite (register_free _ _ Hrow); simpl. split_and!; try done.
    intros name row Hname.
    apply (next_uuid_not_a_user_id Huniq w name);
      [by apply reachable_ids_issued | done].
Qed.

(** C3. Login raises (status 401) exactly when the username is not a key
    of [users_db] or the stored password differs from the supplied one;
    otherwise it returns the greeting built around the username. *)
Theorem login_unauthorized_iff user w :
  let rejected :=
    users_db w !! User.username user = None ∨
    ∃ row, users_db w !! User.username user = Some row ∧
           stored_password row ≠ User.password user in
  (failed_with 401 (login user w) ↔ rejected) ∧
  (failed (login user w) ↔ rejected) ∧
  (status (serve (POST_login user) w).1 = 401%Z ↔ rejected) ∧
  (¬ rejected →
     (login user w).1 =
       inr [("message", VStr ("Welcome, " +:+ User.username user +:+ "!"))]).
Proof.
  intros rejected.
  assert (Hdec : rejected ∨ ∃ row, users_db w !! User.username user = Some row ∧
                   stored_password row = User.password user).
  { subst rejected.
    destruct (users_db w !! User.username user) as [row|]; [| by left; left].
    destruct (decide (stored_password row = User.password user)).
    - right. by exists row.
    - left; right. by exists row. }
  destruct Hdec as [Hbad|(row & Hrow & Hpw)].
  - assert (Hrun : login user w =
                     (inl (mkHTTPException 401 "Invalid credentials"), w)).
    { rewrite login_eq. destruct Hbad as [Hnone|(row & Hrow & Hpw)].
      - by rewrite authenticate_user_unknown.
      - rewrite (authenticate_user_known _ _ _ _ Hrow).
        by destruct (String.eqb_spec (stored_password row) (User.password user)). }
    assert (Hreply : (serve (POST_login user) w).1 =
                       error_reply 401 "Invalid credentials").
    { apply (handler_error_cases (POST_login user) w
               (mkHTTPException 401 "Invalid credentials")).
      unfold handler_error, raised. by rewrite Hrun. }
    rewrite Hreply, Hrun. unfold failed_with, failed; simpl.
    split_and!; [done | done | done | intros Hok; by destruct Hok].
  - assert (Hok : ¬ rejected).
    { intros [Hnone|(row' & Hrow' & Hpw')]; [congruence |].
      rewrite Hrow in Hrow'. injection Hrow' as <-. done. }
    assert (Hrun : login user w =
              (inr [("message",
                     VStr ("Welcome, " +:+ User.username user +:+ "!"))], w)).
    { rewrite login_eq, (authenticate_user_known _ _ _ _ Hrow), Hpw.
      by rewrite String.eqb_refl. }
    assert (Hreply : status (serve (POST_login user) w).1 ≠ 401%Z).
    { destruct (handler_returned_reply (POST_login user) w) as [Hst|Hst].
      - unfold handler_error, raised. by rewrite Hrun.
      - by rewrite Hst.
      - by rewrite Hst. }
    rewrite Hrun. unfold failed_with, failed; simpl.
    split_and!; [split; [done | intros Hbad; by destruct Hok] ..| done].
Qed.

(** C4. Create-post: for a username that is not a key of [users_db] the
    handler raises status 404 and leaves the world as it was; otherwise
    it appends to [posts_db], under an identifier that is not yet a key
    of it, the row made of the content, the username and the current
    clock reading, and leaves [users_db] alone. *)
Theorem create_post_spec post w :
  Inj (=) (=) uuid_stream → reachable w →
  match users_db w !! Post.username post with
  | None =>
      create_post post w = (inl (mkHTTPException 404 "User not found"), w)
  | Some _ =>
      let post_id := uuid_stream (uuid_calls w) in
      let created_at := clock_stream (clock_reads w) in
      (¬ failed (create_post post w)) ∧
      (post_id ∉ PyDict.keys (posts_db w)) ∧
      posts_db (create_post post w).2 =
        posts_db w ++
          [(post_id,
            mkPostRow (Post.content post) (Post.username post) created_at)] ∧
      users_db (create_post post w).2 = users_db w
  end.
Proof.
  intros Huniq Hreach.
  destruct (users_db w !! Post.username post) as [row|] eqn:Hrow.
  - pose proof (next_uuid_not_a_post_id Huniq w (reachable_ids_issued w Hreach))
      as Hfresh.
    rewrite (create_post_known _ _ _ Hrow); simpl.
    split_and!; [by intros [] | done | by apply PyDict_set_fresh | done].
  - by apply create_post_unknown.
Qed.

(** C5. List-posts returns, for the rows of [posts_db] in the order in
    which they were inserted, the pair of content and username (the
    timestamp is not part of an entry) and leaves the world alone; on an
    empty [posts_db] it returns the empty list; and a post that has just
    been created is listed last, after the posts listed before.  The
    reply that is sent is this list when every stored content and
    username can be encoded, and the plain 500 otherwise. *)
Theorem get_posts_spec w :
  Inj (=) (=) uuid_stream → reachable w →
  let listing w :=
    map (λ row, Post.Build (stored_content row) (stored_username row))
        (PyDict.values (posts_db w)) in
  get_posts w = (inr (listing w), w) ∧
  (serve GET_posts w).1 =
    (if forallb (λ row, utf8_encodable (stored_content row) &&
                        utf8_encodable (stored_username row))
                (PyDict.values (posts_db w))
     then mkResponse 200
            (JArray (map (λ row, [("content", VStr (stored_content row));
                                  ("username", VStr (stored_username row))])
                         (PyDict.values (posts_db w))))
     else server_error) ∧
  (posts_db w = [] → (get_posts w).1 = inr []) ∧
  (∀ post, ¬ failed (create_post post w) →
     (get_posts (create_post post w).2).1 = inr (listing w ++ [post])).
Proof.
  intros Huniq Hreach listing. split_and!.
  - apply get_posts_eq.
  - apply serve_GET_posts.
  - rewrite get_posts_eq; simpl. by intros ->.
  - intros post Hok.
    destruct (users_db w !! Post.username post) as [row|] eqn:Hrow.
    + rewrite get_posts_eq, (create_post_known _ _ _ Hrow); simpl.
      rewrite PyDict_set_fresh
        by by apply next_uuid_not_a_post_id, reachable_ids_issued.
      rewrite PyDict_values_app, map_app; simpl. by destruct post.
    + rewrite (create_post_unknown _ _ Hrow) in Hok. by destruct Hok.
Qed.

(** C6 (as amended). A request whose handler raises leaves [users_db]
    and [posts_db] exactly as they were, and is answered with that
    exception: the 400 of a registration, the 401 of a login or the 404
    of a create-post.  (A request answered 500 is not covered: there the
    handler has returned.) *)
Theorem error_leaves_stores_unchanged req w e :
  handler_error req w = Some e →
  users_db (step req w) = users_db w ∧ posts_db (step req w) = posts_db w ∧
  (serve req w).1 = error_reply (status_code e) (detail e) ∧
  (status_code e = 400%Z ∨ status_code e = 401%Z ∨ status_code e = 404%Z).
Proof.
  intros Hraised.
  destruct (handler_error_cases req w e Hraised) as (Hsame & Hreply & Hroute).
  rewrite Hsame. split_and!; [done | done | done |].
  destruct req; [subst e; simpl; tauto .. | done].
Qed.

(** C7. Once [users_db] holds a row for a username, no sequence of
    requests changes or removes it, and a further registration of that
    username is refused, so the username never gets a second row; the
    only way a request changes what [users_db] holds for a username is
    the registration that creates its row. *)
Theorem users_db_rows_are_stable reqs w name row :
  users_db w !! name = Some row →
  users_db (run reqs w) !! name = Some row ∧
  (∀ pw, register (User.Build name pw) (run reqs w) =
           (inl (mkHTTPException 400 "Username already exists"), run reqs w)) ∧
  (∀ req name',
     users_db (step req w) !! name' ≠ users_db w !! name' →
     users_db w !! name' = None ∧
     ∃ pw, req = POST_register (User.Build name' pw) ∧
           users_db (step req w) !! name' =
             Some (mkUserRow (uuid_stream (uuid_calls w)) pw)).
Proof.
  intros Hrow.
  pose proof (users_db_run_mono reqs _ _ _ Hrow) as Hlater.
  split_and!; [done | | intros req name'; apply users_db_step_change].
  intros pw. by apply register_taken with row.
Qed.

(** C8. In every world reachable from the empty dictionaries the
    username of every stored post is a key of [users_db], and no
    sequence of requests updates or deletes a stored post: the posts
    stored now remain, unchanged and in place, at the front of
    [posts_db]. *)
Theorem posts_reference_registered_users reqs w :
  Inj (=) (=) uuid_stream → reachable w →
  (∀ post_id row, (post_id, row) ∈ posts_db w →
     is_Some (users_db w !! stored_username row)) ∧
  posts_db w `prefix_of` posts_db (run reqs w).
Proof.
  intros Huniq Hreach. split.
  - intros post_id row Hin.
    apply (reachable_authors_registered w Hreach).
    apply (list_elem_of_fmap_2 snd) in Hin. exact Hin.
  - by apply posts_db_run_prefix, reachable_ids_issued.
Qed.

(** C9. From a world in which "alice" is not registered,
    [register("alice","pw1")] succeeds, after which
    [login("alice","pw1")] succeeds and [login("alice","wrong")] is
    refused with status 401. *)
Theorem register_login_roundtrip w :
  users_db w !! "alice" = None →
  let w' := (register (User.Build "alice" "pw1") w).2 in
  (¬ failed (register (User.Build "alice" "pw1") w)) ∧
  login (User.Build "alice" "pw1") w' =
    (inr [("message", VStr "Welcome, alice!")], w') ∧
  login (User.Build "alice" "wrong") w' =
    (inl (mkHTTPException 401 "Invalid credentials"), w').
Proof.
  intros Hfree w'. subst w'.
  rewrite (register_free (User.Build "alice" "pw1") w Hfree); simpl.
  split; [by intros [] |].
  rewrite !login_eq; simpl.
  rewrite !(authenticate_user_known _ _ _ _ (lookup_insert_eq _ _ _)); simpl.
  done.
Qed.

(** C10. Login, whether it succeeds or not, and list-posts hand back the
    world they were given: neither dictionary (nor anything else in the
    process state) changes. *)
Theorem login_and_get_posts_read_only user w :
  (login user w).2 = w ∧ (get_posts w).2 = w ∧
  step (POST_login user) w = w ∧ step GET_posts w = w.
Proof.
  rewrite !step_handler. split_and!; try done; apply login_world.
Qed.
End Properties.

(** ** Further properties: sequences of requests *)
Section Sequences.
Context `{env : Environment}.
Implicit Types (w : World) (user : User.t) (post : Post.t) (req : Request).

(** What one request does to the password held for [name]. *)
Lemma stored_password_step req w name :
  stored_password <$> users_db (step req w) !! name =
    match users_db w !! name with
    | Some row => Some (stored_password row)
    | None => first_registration name [req]
    end.
Proof.
  destruct (users_db w !! name) as [row|] eqn:Hname.
  - by rewrite (users_db_step_mono req w name row Hname).
  - rewrite step_handler. destruct req as [user|user|post|]; simpl.
    + destruct (String.eqb_spec (User.username user) name) as [Heq|Hne].
      * subst name. rewrite (register_free _ _ Hname); simpl.
        by rewrite lookup_insert_eq.
      * destruct (users_db w !! User.username user) as [row|] eqn:Hrow.
        -- rewrite (register_taken _ _ _ Hrow); simpl. by rewrite Hname.
        -- rewrite (register_free _ _ Hrow); simpl.
           rewrite lookup_insert_ne by done. by rewrite Hname.
    + rewrite login_world. by rewrite Hname.
    + destruct (users_db w !! Post.username post) as [row|] eqn:Hrow.
      * rewrite (create_post_known _ _ _ Hrow); simpl. by rewrite Hname.
      * rewrite (create_post_unknown _ _ Hrow); simpl. by rewrite Hname.
    + by rewrite Hname.
Qed.

Lemma first_registration_cons req reqs name :
  first_registration name (req :: reqs) =
    match first_registration name [req] with
    | Some pw => Some pw
    | None => first_registration name reqs
    end.
Proof.
  destruct req as [user|user|post|]; simpl; try done.
  by destruct (String.eqb _ _).
Qed.

(** X1. The password held for a username after a sequence of requests is
    the one it had before, if it had one, and otherwise the password of
    the first registration request for that username in the sequence:
    later registrations of the name change nothing. *)
Theorem first_registration_wins reqs w name :
  stored_password <$> users_db (run reqs w) !! name =
    match users_db w !! name with
    | Some row => Some (stored_password row)
    | None => first_registration name reqs
    end.
Proof.
  revert w. induction reqs as [|req reqs IH]; intros w.
  - simpl. by destruct (users_db w !! name).
  - rewrite run_cons, IH, first_registration_cons.
    pose proof (stored_password_step req w name) as Hstep.
    destruct (users_db w !! name) as [row|] eqn:Hname.
    + by rewrite (users_db_step_mono req w name row Hname).
    + rewrite <- Hstep. by destruct (users_db (step req w) !! name).
Qed.

(** X2. Credentials are permanent.  Once a registration has gone through,
    then after any further requests [authenticate_user] returns, for the
    registered password, exactly the record the registration returned
    (the same id), and raises 401 for every other password; [login]
    follows it. *)
Theorem registered_credentials_are_permanent user reqs password w :
  users_db w !! User.username user = None →
  let registered := (register user w).1 in
  let w' := run reqs (register user w).2 in
  (password = User.password user →
     authenticate_user (User.username user) password w' = (registered, w') ∧
     login (User.Build (User.username user) password) w' =
       (inr [("message", VStr ("Welcome, " +:+ User.username user +:+ "!"))], w')) ∧
  (password ≠ User.password user →
     authenticate_user (User.username user) password w' =
       (inl (mkHTTPException 401 "Invalid credentials"), w') ∧
     login (User.Build (User.username user) password) w' =
       (inl (mkHTTPException 401 "Invalid credentials"), w')).
Proof.
  intros Hfree registered w'. subst registered w'.
  rewrite (register_free _ _ Hfree); simpl.
  set (w1 := mkWorld _ _ _ _).
  assert (Hrow : users_db (run reqs w1) !! User.username user =
            Some (mkUserRow (uuid_stream (uuid_calls w)) (User.password user))).
  { apply users_db_run_mono. subst w1; simpl. apply lookup_insert_eq. }
  rewrite !login_eq; simpl.
  rewrite !(authenticate_user_known _ _ _ _ Hrow); simpl.
  split.
  - intros ->. by rewrite String.eqb_refl.
  - intros Hne.
    by destruct (String.eqb_spec (User.password user) password) as [Heq|_].
Qed.


(** X4. Who writes where: a request changes [users_db] only if it is a
    registration whose handler returned, and [posts_db] only if it is a
    create-post whose handler returned; the reply is then a 200, or the
    500 of a reply that could not be encoded. *)
Theorem writes_by_route req w :
  (users_db (step req w) ≠ users_db w →
     (∃ user, req = POST_register user) ∧ handler_error req w = None ∧
     (status (serve req w).1 = 200%Z ∨ (serve req w).1 = server_error)) ∧
  (posts_db (step req w) ≠ posts_db w →
     (∃ post, req = POST_posts post) ∧ handler_error req w = None ∧
     (status (serve req w).1 = 200%Z ∨ (serve req w).1 = server_error)).
Proof.
  assert (Hcases : handler_error req w = None ∨ step req w = w).
  { destruct (handler_error req w) as [e|] eqn:Hraised; [| by left].
    right. by destruct (handler_error_cases req w e Hraised). }
  split; intros Hchange.
  - destruct Hcases as [Hret|Hsame]; [| by rewrite Hsame in Hchange].
    split_and!; [| done | by apply handler_returned_reply].
    revert Hchange. rewrite step_handler.
    destruct req as [user|user|post|]; [by eexists | | |].
    + by rewrite login_world.
    + destruct (users_db w !! Post.username post) as [row|] eqn:Hrow.
      * by rewrite (create_post_known _ _ _ Hrow).
      * by rewrite (create_post_unknown _ _ Hrow).
    + done.
  - destruct Hcases as [Hret|Hsame]; [| by rewrite Hsame in Hchange].
    split_and!; [| done | by apply handler_returned_reply].
    revert Hchange. rewrite step_handler.
    destruct req as [user|user|post|]; [| | by eexists |].
    + destruct (users_db w !! User.username user) as [row|] eqn:Hrow.
      * by rewrite (register_taken _ _ _ Hrow).
      * by rewrite (register_free _ _ Hrow).
    + by rewrite login_world.
    + done.
Qed.

End Sequences.

(** ** Further properties: identifiers, the feed and its timestamps *)
Section Feed.
Context `{env : Environment}.
Implicit Types (w : World) (user : User.t) (post : Post.t) (req : Request).

(** The usernames registered after one request. *)
Lemma dom_users_db_step req w :
  dom (users_db (step req w)) =
    match req with
    | POST_register user => {[User.username user]} ∪ dom (users_db w)
    | _ => dom (users_db w)
    end.
Proof.
  rewrite step_handler. destruct req as [user|user|post|].
  - destruct (users_db w !! User.username user) as [row|] eqn:Hrow.
    + rewrite (register_taken _ _ _ Hrow); simpl.
      symmetry. apply subseteq_union_1_L, singleton_subseteq_l.
      by apply elem_of_dom.
    + rewrite (register_free _ _ Hrow); simpl. apply dom_insert_L.
  - by rewrite login_world.
  - destruct (users_db w !! Post.username post) as [row|] eqn:Hrow.
    + by rewrite (create_post_known _ _ _ Hrow).
    + by rewrite (create_post_unknown _ _ Hrow).
  - done.
Qed.

Section UniqueIds.
Hypothesis uuid_unique : Inj (=) (=) uuid_stream.

(** What one request adds to the rows of [posts_db]. *)
Lemma posts_db_values_step req w :
  ids_issued w →
  PyDict.values (posts_db (step req w)) =
    PyDict.values (posts_db w) ++
      match req with
      | POST_posts post =>
          if decide (Post.username post ∈ dom (users_db w))
          then [mkPostRow (Post.content post) (Post.username post)
                  (clock_stream (clock_reads w))]
          else []
      | _ => []
      end.
Proof.
  intros Hids. rewrite step_handler. destruct req as [user|user|post|].
  - rewrite app_nil_r.
    destruct (users_db w !! User.username user) as [row|] eqn:Hrow.
    + by rewrite (register_taken _ _ _ Hrow).
    + by rewrite (register_free _ _ Hrow).
  - by rewrite login_world, app_nil_r.
  - destruct (users_db w !! Post.username post) as [row|] eqn:Hrow.
    + rewrite (create_post_known _ _ _ Hrow); simpl.
      rewrite PyDict_set_fresh by by apply next_uuid_not_a_post_id.
      rewrite PyDict_values_app; simpl.
      rewrite decide_True; [done |]. by apply elem_of_dom.
    + rewrite (create_post_unknown _ _ Hrow); simpl.
      rewrite decide_False, app_nil_r; [done |].
      by apply not_elem_of_dom.
  - by rewrite app_nil_r.
Qed.

Lemma listing_run reqs w :
  ids_issued w →
  map (λ row, Post.Build (stored_content row) (stored_username row))
      (PyDict.values (posts_db (run reqs w))) =
    map (λ row, Post.Build (stored_content row) (stored_username row))
        (PyDict.values (posts_db w)) ++
      accepted_posts (dom (users_db w)) reqs.
Proof.
  revert w. induction reqs as [|req reqs IH]; intros w Hids.
  - by rewrite app_nil_r.
  - rewrite run_cons, IH by by apply ids_issued_step.
    rewrite posts_db_values_step, dom_users_db_step by done.
    rewrite map_app, <- app_assoc. f_equal.
    destruct req as [user|user|post|]; simpl; try done.
    case_decide; [| done]. by destruct post.
Qed.

Lemma ids_distinct_step req w :
  ids_issued w → ids_distinct w → ids_distinct (step req w).
Proof.
  intros Hids (Husers & Hcross & Hposts). rewrite step_handler.
  destruct req as [user|user|post|].
  - destruct (users_db w !! User.username user) as [row|] eqn:Hrow.
    + by rewrite (register_taken _ _ _ Hrow).
    + rewrite (register_free _ _ Hrow). split_and!; simpl.
      * intros name1 name2 row1 row2. rewrite !lookup_insert.
        repeat case_decide; subst.
        -- done.
        -- intros [= <-] Hold Hid; simpl in Hid.
           by destruct (next_uuid_not_a_user_id uuid_unique w name2 row2).
        -- intros Hold [= <-] Hid; simpl in Hid.
           by destruct (next_uuid_not_a_user_id uuid_unique w name1 row1).
        -- apply Husers.
      * intros name row. rewrite lookup_insert. case_decide.
        -- intros [= <-]; simpl. by apply next_uuid_not_a_post_id.
        -- apply Hcross.
      * done.
  - by rewrite login_world.
  - destruct (users_db w !! Post.username post) as [row|] eqn:Hrow.
    + pose proof (next_uuid_not_a_post_id uuid_unique w Hids) as Hfresh.
      rewrite (create_post_known _ _ _ Hrow). split_and!; simpl.
      * done.
      * intros name row' Hname.
        rewrite PyDict_set_fresh by done.
        unfold PyDict.keys. rewrite map_app, elem_of_app; simpl.
        rewrite list_elem_of_singleton. intros [Hin|Heq].
        -- by apply (Hcross name row').
        -- by destruct (next_uuid_not_a_user_id uuid_unique w name row').
      * rewrite PyDict_set_fresh by done.
        unfold PyDict.keys. rewrite map_app; simpl.
        apply NoDup_app. split_and!; [done | | apply NoDup_singleton].
        intros k Hk. rewrite list_elem_of_singleton. by intros ->.
    + by rewrite (create_post_unknown _ _ Hrow).
  - done.
Qed.

Lemma reachable_ids_distinct w : reachable w → ids_distinct w.
Proof.
  induction 1 as [|req w Hreach IH].
  - split_and!; simpl.
    + intros name1 name2 row1 row2 Hrow. by rewrite lookup_empty in Hrow.
    + intros name row Hrow. by rewrite lookup_empty in Hrow.
    + apply NoDup_nil_2.
  - by apply ids_distinct_step; [apply reachable_ids_issued |].
Qed.

(** The [i]-th row of [posts_db] holds the [i]-th reading of the clock. *)
Lemma clock_readings_step req w :
  ids_issued w →
  clock_reads w = length (posts_db w) ∧
  (∀ i row, PyDict.values (posts_db w) !! i = Some row →
     stored_created_at row = clock_stream i) →
  clock_reads (step req w) = length (posts_db (step req w)) ∧
  (∀ i row, PyDict.values (posts_db (step req w)) !! i = Some row →
     stored_created_at row = clock_stream i).
Proof.
  intros Hids [Hreads Hrows].
  pose proof (posts_db_values_step req w Hids) as Hvalues.
  revert Hvalues. rewrite step_handler. destruct req as [user|user|post|].
  - intros _. destruct (users_db w !! User.username user) as [row|] eqn:Hrow.
    + by rewrite (register_taken _ _ _ Hrow).
    + by rewrite (register_free _ _ Hrow).
  - intros _. by rewrite login_world.
  - destruct (users_db w !! Post.username post) as [row|] eqn:Hrow.
    + rewrite decide_True by by apply elem_of_dom.
      intros ->. rewrite (create_post_known _ _ _ Hrow); simpl.
      rewrite PyDict_set_fresh by by apply next_uuid_not_a_post_id.
      split; [rewrite length_app; simpl; lia |].
      intros i row'. rewrite lookup_snoc_Some.
      intros [[_ Hold]|[-> <-]]; [by apply Hrows |]; simpl.
      unfold PyDict.values. by rewrite length_map, Hreads.
    + intros _. by rewrite (create_post_unknown _ _ Hrow).
  - done.
Qed.

Lemma reachable_clock_readings w :
  reachable w →
  clock_reads w = length (posts_db w) ∧
  (∀ i row, PyDict.values (posts_db w) !! i = Some row →
     stored_created_at row = clock_stream i).
Proof.
  induction 1 as [|req w Hreach IH].
  - split; [done |]. intros i row Hrow. simpl in Hrow.
    by rewrite lookup_nil in Hrow.
  - by apply clock_readings_step; [apply reachable_ids_issued |].
Qed.
End UniqueIds.

(** X5. The feed is the accepted posts, in request order.  After any
    sequence of requests, list-posts returns what it returned before
    followed by the create-post requests of the sequence whose username
    was registered when they arrived, in the order of arrival; neither
    the identifiers drawn nor the clock readings have any part in it. *)
Theorem feed_is_accepted_posts reqs w :
  Inj (=) (=) uuid_stream → reachable w →
  ∀ before, (get_posts w).1 = inr before →
    (get_posts (run reqs w)).1 =
      inr (before ++ accepted_posts (dom (users_db w)) reqs).
Proof.
  intros Huniq Hreach before. rewrite !get_posts_eq; simpl.
  intros [= <-]. f_equal.
  by apply listing_run, reachable_ids_issued.
Qed.

(** X6. Identifiers are unique across the whole process: in every
    reachable world two different usernames have different ids, no user
    id is also a post id, and no two posts share an id. *)
Theorem identifiers_are_unique w :
  Inj (=) (=) uuid_stream → reachable w →
  (∀ name1 name2 row1 row2,
     users_db w !! name1 = Some row1 → users_db w !! name2 = Some row2 →
     name1 ≠ name2 → stored_id row1 ≠ stored_id row2) ∧
  (∀ name row, users_db w !! name = Some row →
     PyDict.get (stored_id row) (posts_db w) = None) ∧
  NoDup (PyDict.keys (posts_db w)).
Proof.
  intros Huniq Hreach.
  destruct (reachable_ids_distinct Huniq w Hreach) as (Husers & Hcross & Hposts).
  split_and!; [| | done].
  - intros name1 name2 row1 row2 Hrow1 Hrow2 Hne Hid.
    by destruct Hne; apply (Husers name1 name2 row1 row2).
  - intros name row Hrow. apply PyDict_get_None. by apply (Hcross name).
Qed.

(** X7. Posts are stored in the order in which their timestamps were
    taken: the [i]-th post of [posts_db] carries the [i]-th reading of
    [datetime.now()].  So when the clock never goes backwards, the
    stored posts (and with them the feed) are in non-decreasing order of
    [created_at]. *)
Theorem posts_are_in_clock_order w :
  Inj (=) (=) uuid_stream → reachable w →
  (∀ i row, PyDict.values (posts_db w) !! i = Some row →
     stored_created_at row = clock_stream i) ∧
  ((∀ m n, m ≤ n → (clock_stream m ≤ clock_stream n)%Z) →
   ∀ i j row_i row_j,
     i ≤ j →
     PyDict.values (posts_db w) !! i = Some row_i →
     PyDict.values (posts_db w) !! j = Some row_j →
     (stored_created_at row_i ≤ stored_created_at row_j)%Z).
Proof.
  intros Huniq Hreach.
  destruct (reachable_clock_readings Huniq w Hreach) as [_ Hrows].
  split; [done |].
  intros Hmono i j row_i row_j Hij Hi Hj.
  rewrite (Hrows _ _ Hi), (Hrows _ _ Hj). by apply Hmono.
Qed.

(** X9. One post that cannot be encoded takes the listing down for good:
    once [posts_db] holds a post whose content or username has a lone
    surrogate, every later listing is answered 500, whatever requests
    come in between, since no request removes a post. *)
Theorem unencodable_post_breaks_the_feed reqs w row :
  Inj (=) (=) uuid_stream → reachable w →
  row ∈ PyDict.values (posts_db w) →
  utf8_encodable (stored_content row) && utf8_encodable (stored_username row)
    = false →
  (serve GET_posts (run reqs w)).1 = server_error.
Proof.
  intros Huniq Hreach Hin Hbad. rewrite serve_GET_posts.
  destruct (forallb _ (PyDict.values (posts_db (run reqs w)))) eqn:Hall;
    [| done].
  rewrite forallb_forall in Hall.
  specialize (Hall row). rewrite Hbad in Hall.
  assert (Hfalse : false = true); [| done].
  apply Hall, list_elem_of_In.
  destruct (posts_db_run_prefix Huniq reqs w (reachable_ids_issued w Hreach))
    as [added ->].
  rewrite PyDict_values_app, elem_of_app. by left.
Qed.
End Feed.

(** ** The properties at work on the concrete environment *)
#[local] Existing Instance demo_env.

(** Registering the same username twice: success, then status 400. *)
Example register_twice :
  status (serve (POST_register bob) initial).1 = 200%Z ∧
  (serve (POST_register bob) w_bob).1 =
    mkResponse 400 (JObject [("detail", VStr "Username already exists")]).
Proof. by vm_compute. Qed.

(** The reply to a successful registration. *)
Example register_reply :
  (serve (POST_register bob) initial).1 =
    mkResponse 200 (JObject [("username", VStr "bob");
                             ("password", VStr "secret");
                             ("id", VStr "0")]).
Proof. by vm_compute. Qed.

(** Passwords are compared as they are: a different capital is a
    different password, and an unknown user is refused in the same way. *)
Example login_is_case_sensitive :
  (serve (POST_login (User.Build "bob" "secret")) w_bob).1 =
    mkResponse 200 (JObject [("message", VStr "Welcome, bob!")]) ∧
  (serve (POST_login (User.Build "bob" "Secret")) w_bob).1 =
    mkResponse 401 (JObject [("detail", VStr "Invalid credentials")]) ∧
  (serve (POST_login (User.Build "Bob" "secret")) w_bob).1 =
    mkResponse 401 (JObject [("detail", VStr "Invalid credentials")]).
Proof. by vm_compute. Qed.

(** Posting as a user who never registered: status 404. *)
Example create_post_unknown_user :
  (serve (POST_posts (Post.Build "hi" "carol")) w_bob).1 =
    mkResponse 404 (JObject [("detail", VStr "User not found")]).
Proof. by vm_compute. Qed.

(** Register "bob", post "hello world", list: exactly one entry. *)
Example bob_scenario :
  run [POST_register bob; POST_posts hello] initial = w_hello ∧
  posts_db w_hello = [("1", mkPostRow "hello world" "bob" 1000%Z)] ∧
  (serve GET_posts w_hello).1 =
    mkResponse 200
      (JArray [[("content", VStr "hello world"); ("username", VStr "bob")]]).
Proof. by vm_compute. Qed.

(** Listing before any post was created. *)
Example get_posts_empty :
  (serve GET_posts initial).1 = mkResponse 200 (JArray []) ∧
  (serve GET_posts w_bob).1 = mkResponse 200 (JArray []).
Proof. by vm_compute. Qed.

(** Neither handler looks at the identifiers already in use: were
    [uuid4()] to return a string a second time, the second post would
    replace the first under that key.  The freshness results above are
    therefore stated for identifier sources that do not repeat. *)
Example repeated_uuid_replaces_post :
  posts_db (@run stuck_env
              [POST_register bob; POST_posts hello;
               POST_posts (Post.Build "again" "bob")] initial) =
    [("0", mkPostRow "again" "bob" 2000%Z)].
Proof. by vm_compute. Qed.

Lemma POST_posts_reply_fields_witness :
  users_db w_bob !! Post.username hello = Some (mkUserRow "0" "secret") ∧
  (create_post hello w_bob).1 =
    inr [("content", VStr "hello world"); ("username", VStr "bob");
         ("created_at", VDatetime 1000%Z)] ∧
  PyDict.get "1" (posts_db (create_post hello w_bob).2) =
    Some (mkPostRow "hello world" "bob" 1000%Z) ∧
  (serve (POST_posts hello) w_bob).1 =
    mkResponse 200 (JObject [("content", VStr "hello world");
                             ("username", VStr "bob")]) ∧
  PyDict.contains "created_at"
    (match body (serve (POST_posts hello) w_bob).1 with
     | JObject fields => fields
     | JArray _ => []
     | PlainText _ => []
     end) = false.
Proof.
  assert (Hrow : users_db w_bob !! Post.username hello =
                   Some (mkUserRow "0" "secret")) by (vm_compute; reflexivity).
  split; [exact Hrow |].
  exact (POST_posts_reply_fields hello w_bob _ Hrow).
Defined.

Lemma register_spec_witness :
  Inj (=) (=) uuid_stream ∧ reachable w_bob ∧
  register bob w_bob =
    (inl (mkHTTPException 400 "Username already exists"), w_bob) ∧
  let alice := User.Build "alice" "pw1" in
  (∀ name row, users_db w_bob !! name = Some row → stored_id row ≠ "1") ∧
  (register alice w_bob).1 = inr (UserInDB.Build "1" "alice" "pw1") ∧
  users_db (register alice w_bob).2 =
    <["alice" := mkUserRow "1" "pw1"]> (users_db w_bob) ∧
  posts_db (register alice w_bob).2 = posts_db w_bob.
Proof.
  assert (Huniq : Inj (=) (=) uuid_stream)
    by (intros m n Hmn; exact (pretty_nat_inj m n Hmn)).
  assert (Hreach : reachable w_bob) by (unfold w_bob; repeat constructor).
  split; [exact Huniq |]. split; [exact Hreach |]. split.
  - exact (register_spec bob w_bob Huniq Hreach).
  - exact (register_spec (User.Build "alice" "pw1") w_bob Huniq Hreach).
Defined.

Lemma create_post_spec_witness :
  Inj (=) (=) uuid_stream ∧ reachable w_bob ∧
  create_post (Post.Build "hi" "carol") w_bob =
    (inl (mkHTTPException 404 "User not found"), w_bob) ∧
  (¬ failed (create_post hello w_bob)) ∧
  ("1" ∉ PyDict.keys (posts_db w_bob)) ∧
  posts_db (create_post hello w_bob).2 =
    posts_db w_bob ++ [("1", mkPostRow "hello world" "bob" 1000%Z)] ∧
  users_db (create_post hello w_bob).2 = users_db w_bob.
Proof.
  assert (Huniq : Inj (=) (=) uuid_stream)
    by (intros m n Hmn; exact (pretty_nat_inj m n Hmn)).
  assert (Hreach : reachable w_bob) by (unfold w_bob; repeat constructor).
  split; [exact Huniq |]. split; [exact Hreach |]. split.
  - exact (create_post_spec (Post.Build "hi" "carol") w_bob Huniq Hreach).
  - exact (create_post_spec hello w_bob Huniq Hreach).
Defined.

Lemma get_posts_spec_witness :
  Inj (=) (=) uuid_stream ∧ reachable w_hello ∧
  get_posts w_hello = (inr [hello], w_hello) ∧
  (serve GET_posts w_hello).1 =
    mkResponse 200
      (JArray [[("content", VStr "hello world"); ("username", VStr "bob")]]) ∧
  (posts_db w_hello = [] → (get_posts w_hello).1 = inr []) ∧
  (∀ post, ¬ failed (create_post post w_hello) →
     (get_posts (create_post post w_hello).2).1 = inr ([hello] ++ [post])).
Proof.
  assert (Huniq : Inj (=) (=) uuid_stream)
    by (intros m n Hmn; exact (pretty_nat_inj m n Hmn)).
  assert (Hreach : reachable w_hello)
    by (unfold w_hello, w_bob; repeat constructor).
  split; [exact Huniq |]. split; [exact Hreach |].
  exact (get_posts_spec w_hello Huniq Hreach).
Defined.

Lemma error_leaves_stores_unchanged_witness :
  let conflict := mkHTTPException 400 "Username already exists" in
  handler_error (POST_register bob) w_hello = Some conflict ∧
  users_db (step (POST_register bob) w_hello) = users_db w_hello ∧
  posts_db (step (POST_register bob) w_hello) = posts_db w_hello ∧
  (serve (POST_register bob) w_hello).1 =
    error_reply 400 "Username already exists" ∧
  (status_code conflict = 400%Z ∨ status_code conflict = 401%Z ∨
   status_code conflict = 404%Z).
Proof.
  intros conflict.
  assert (Hraised : handler_error (POST_register bob) w_hello = Some conflict)
    by (vm_compute; reflexivity).
  split; [exact Hraised |].
  exact (error_leaves_stores_unchanged (POST_register bob) w_hello conflict Hraised).
Defined.

(** C6 as it was stated does not hold.  A registration whose username
    holds a lone surrogate goes through in the handler: the row is
    stored.  The reply [{id, username, password}] then cannot be encoded
    and the client is answered 500.  The request has ended in an error
    and [users_db] is not what it was. *)
Lemma server_error_after_register :
  let req := POST_register (User.Build lone_surrogate "pw") in
  (serve req initial).1 = server_error ∧
  status (serve req initial).1 ≠ 200%Z ∧
  users_db initial !! lone_surrogate = None ∧
  users_db (step req initial) !! lone_surrogate = Some (mkUserRow "0" "pw") ∧
  ¬ (users_db (step req initial) = users_db initial ∧
     posts_db (step req initial) = posts_db initial).
Proof.
  intros req.
  assert (Hafter : users_db (step req initial) !! lone_surrogate =
                     Some (mkUserRow "0" "pw")) by (vm_compute; reflexivity).
  split_and!; [by vm_compute | by vm_compute | by vm_compute | exact Hafter |].
  intros [Husers _]. rewrite Husers in Hafter. by vm_compute in Hafter.
Qed.

Lemma users_db_rows_are_stable_witness :
  let reqs := [POST_posts hello; POST_register (User.Build "bob" "other");
               POST_register (User.Build "alice" "pw1"); POST_login bob] in
  users_db w_bob !! "bob" = Some (mkUserRow "0" "secret") ∧
  users_db (run reqs w_bob) !! "bob" = Some (mkUserRow "0" "secret") ∧
  (∀ pw, register (User.Build "bob" pw) (run reqs w_bob) =
           (inl (mkHTTPException 400 "Username already exists"),
            run reqs w_bob)) ∧
  (∀ req name',
     users_db (step req w_bob) !! name' ≠ users_db w_bob !! name' →
     users_db w_bob !! name' = None ∧
     ∃ pw, req = POST_register (User.Build name' pw) ∧
           users_db (step req w_bob) !! name' = Some (mkUserRow "1" pw)).
Proof.
  intros reqs.
  assert (Hrow : users_db w_bob !! "bob" = Some (mkUserRow "0" "secret"))
    by (vm_compute; reflexivity).
  split; [exact Hrow |].
  exact (users_db_rows_are_stable reqs w_bob "bob" _ Hrow).
Defined.

Lemma posts_reference_registered_users_witness :
  let reqs := [POST_posts (Post.Build "again" "bob"); GET_posts] in
  Inj (=) (=) uuid_stream ∧ reachable w_hello ∧
  (∀ post_id row, (post_id, row) ∈ posts_db w_hello →
     is_Some (users_db w_hello !! stored_username row)) ∧
  posts_db w_hello `prefix_of` posts_db (run reqs w_hello).
Proof.
  intros reqs.
  assert (Huniq : Inj (=) (=) uuid_stream)
    by (intros m n Hmn; exact (pretty_nat_inj m n Hmn)).
  assert (Hreach : reachable w_hello)
    by (unfold w_hello, w_bob; repeat constructor).
  split; [exact Huniq |]. split; [exact Hreach |].
  exact (posts_reference_registered_users reqs w_hello Huniq Hreach).
Defined.

Lemma register_login_roundtrip_witness :
  users_db w_hello !! "alice" = None ∧
  let w' := (register (User.Build "alice" "pw1") w_hello).2 in
  (¬ failed (register (User.Build "alice" "pw1") w_hello)) ∧
  login (User.Build "alice" "pw1") w' =
    (inr [("message", VStr "Welcome, alice!")], w') ∧
  login (User.Build "alice" "wrong") w' =
    (inl (mkHTTPException 401 "Invalid credentials"), w').
Proof.
  assert (Hfree : users_db w_hello !! "alice" = None)
    by (vm_compute; reflexivity).
  split; [exact Hfree |].
  exact (register_login_roundtrip w_hello Hfree).
Defined.

Lemma registered_credentials_are_permanent_witness :
  let alice := User.Build "alice" "pw1" in
  let reqs := [POST_register (User.Build "alice" "other"); POST_posts hello;
               POST_login (User.Build "alice" "other")] in
  let w' := run reqs (register alice w_bob).2 in
  users_db w_bob !! "alice" = None ∧
  authenticate_user "alice" "pw1" w' =
    (inr (UserInDB.Build "1" "alice" "pw1"), w') ∧
  authenticate_user "alice" "other" w' =
    (inl (mkHTTPException 401 "Invalid credentials"), w').
Proof.
  intros alice reqs w'.
  assert (Hfree : users_db w_bob !! User.username alice = None)
    by (vm_compute; reflexivity).
  assert (Hne : "other" ≠ User.password alice) by (simpl; discriminate).
  split; [exact Hfree |]. split.
  - exact (proj1 (proj1 (registered_credentials_are_permanent
                           alice reqs "pw1" w_bob Hfree) eq_refl)).
  - exact (proj1 (proj2 (registered_credentials_are_permanent
                           alice reqs "other" w_bob Hfree) Hne)).
Defined.

Lemma feed_is_accepted_posts_witness :
  let reqs := [POST_posts (Post.Build "too early" "carol");
               POST_register (User.Build "carol" "pw");
               POST_posts (Post.Build "now I can" "carol");
               POST_login bob;
               POST_posts (Post.Build "again" "bob")] in
  Inj (=) (=) uuid_stream ∧ reachable w_hello ∧
  (get_posts w_hello).1 = inr [hello] ∧
  (get_posts (run reqs w_hello)).1 =
    inr ([hello] ++ [Post.Build "now I can" "carol"; Post.Build "again" "bob"]).
Proof.
  intros reqs.
  assert (Huniq : Inj (=) (=) uuid_stream)
    by (intros m n Hmn; exact (pretty_nat_inj m n Hmn)).
  assert (Hreach : reachable w_hello)
    by (unfold w_hello, w_bob; repeat constructor).
  assert (Hbefore : (get_posts w_hello).1 = inr [hello]) by reflexivity.
  split; [exact Huniq |]. split; [exact Hreach |]. split; [exact Hbefore |].
  exact (feed_is_accepted_posts reqs w_hello Huniq Hreach [hello] Hbefore).
Defined.

Lemma identifiers_are_unique_witness :
  let w := run [POST_register (User.Build "alice" "pw1");
                POST_posts (Post.Build "hi" "alice")] w_hello in
  Inj (=) (=) uuid_stream ∧ reachable w ∧
  (∀ name1 name2 row1 row2,
     users_db w !! name1 = Some row1 → users_db w !! name2 = Some row2 →
     name1 ≠ name2 → stored_id row1 ≠ stored_id row2) ∧
  (∀ name row, users_db w !! name = Some row →
     PyDict.get (stored_id row) (posts_db w) = None) ∧
  NoDup (PyDict.keys (posts_db w)).
Proof.
  intros w.
  assert (Huniq : Inj (=) (=) uuid_stream)
    by (intros m n Hmn; exact (pretty_nat_inj m n Hmn)).
  assert (Hreach : reachable w)
    by (unfold w, run, w_hello, w_bob; simpl; repeat constructor).
  split; [exact Huniq |]. split; [exact Hreach |].
  exact (identifiers_are_unique w Huniq Hreach).
Defined.

Lemma posts_are_in_clock_order_witness :
  let w := run [POST_posts (Post.Build "again" "bob")] w_hello in
  Inj (=) (=) uuid_stream ∧ reachable w ∧
  (∀ m n, m ≤ n → (clock_stream m ≤ clock_stream n)%Z) ∧
  PyDict.values (posts_db w) =
    [mkPostRow "hello world" "bob" 1000%Z; mkPostRow "again" "bob" 2000%Z] ∧
  (∀ i j row_i row_j,
     i ≤ j →
     PyDict.values (posts_db w) !! i = Some row_i →
     PyDict.values (posts_db w) !! j = Some row_j →
     (stored_created_at row_i ≤ stored_created_at row_j)%Z).
Proof.
  intros w.
  assert (Huniq : Inj (=) (=) uuid_stream)
    by (intros m n Hmn; exact (pretty_nat_inj m n Hmn)).
  assert (Hreach : reachable w)
    by (unfold w, run, w_hello, w_bob; simpl; repeat constructor).
  assert (Hmono : ∀ m n, m ≤ n → (clock_stream m ≤ clock_stream n)%Z)
    by (intros m n Hmn; simpl; lia).
  split; [exact Huniq |]. split; [exact Hreach |]. split; [exact Hmono |].
  split; [by vm_compute |].
  exact (proj2 (posts_are_in_clock_order w Huniq Hreach) Hmono).
Defined.

(** A second registration of "alice" is refused and her password stays
    the first one. *)
Example second_registration_is_ignored :
  let reqs := [POST_register (User.Build "alice" "pw1");
               POST_register (User.Build "alice" "other")] in
  first_registration "alice" reqs = Some "pw1" ∧
  stored_password <$> users_db (run reqs w_bob) !! "alice" = Some "pw1" ∧
  map (λ w, status (serve (POST_register (User.Build "alice" "other")) w).1)
      [w_bob; run reqs w_bob] = [200%Z; 400%Z].
Proof. by vm_compute. Qed.


Lemma unencodable_post_breaks_the_feed_witness :
  let w := step (POST_posts (Post.Build lone_surrogate "bob")) w_hello in
  let row := mkPostRow lone_surrogate "bob" 2000%Z in
  let reqs := [POST_register (User.Build "alice" "pw1");
               POST_posts (Post.Build "fine" "alice")] in
  Inj (=) (=) uuid_stream ∧ reachable w ∧
  row ∈ PyDict.values (posts_db w) ∧
  utf8_encodable (stored_content row) && utf8_encodable (stored_username row)
    = false ∧
  (serve GET_posts (run reqs w)).1 = server_error.
Proof.
  intros w row reqs.
  assert (Huniq : Inj (=) (=) uuid_stream)
    by (intros m n Hmn; exact (pretty_nat_inj m n Hmn)).
  assert (Hreach : reachable w)
    by (unfold w, w_hello, w_bob; repeat constructor).
  assert (Hin : row ∈ PyDict.values (posts_db w))
    by (vm_compute; apply list_elem_of_further, list_elem_of_here).
  assert (Hbad : utf8_encodable (stored_content row) &&
                 utf8_encodable (stored_username row) = false)
    by (vm_compute; reflexivity).
  split; [exact Huniq |]. split; [exact Hreach |]. split; [exact Hin |].
  split; [exact Hbad |].
  exact (unencodable_post_breaks_the_feed reqs w row Huniq Hreach Hin Hbad).
Defined.

(** Plain text, the empty string, U+00E9 and U+D7FF (the last code point
    before the surrogates) encode; a lone surrogate does not, nor does a
    string that contains one. *)
Example utf8_encodable_examples :
  utf8_encodable "hello world" = true ∧
  utf8_encodable "" = true ∧
  utf8_encodable (String (Ascii.ascii_of_nat 195)
                    (String (Ascii.ascii_of_nat 169) EmptyString)) = true ∧
  utf8_encodable (String (Ascii.ascii_of_nat 237)
                    (String (Ascii.ascii_of_nat 159)
                       (String (Ascii.ascii_of_nat 191) EmptyString))) = true ∧
  utf8_encodable lone_surrogate = false ∧
  utf8_encodable ("Welcome, " +:+ lone_surrogate +:+ "!") = false.
Proof. by vm_compute. Qed.
